(** * crm/schema.py: the GraphQL mutations of the CRM over its relational store

    The four mutations of [class Mutation] (create_customer,
    bulk_create_customers, create_product, create_order) are embedded as
    functions over an explicit store, in a state-and-exception monad that
    mirrors the way the Python code reads and writes the ORM tables and
    raises or catches exceptions. *)

From Stdlib Require Import String Ascii ZArith NArith Bool Lia List.
From Stdlib Require Import Floats.PrimFloat.
From Stdlib Require Import Permutation.
Import ListNotations.

Set Implicit Arguments.

(** ** Python strings

    A Python [str] is a sequence of Unicode code points. *)

Definition pystr := list N.

(** The code points of an ASCII literal. *)
Definition str (s : string) : pystr := map N_of_ascii (list_ascii_of_string s).

Fixpoint pystr_eqb (a b : pystr) : bool :=
  match a, b with
  | [], [] => true
  | x :: a', y :: b' => N.eqb x y && pystr_eqb a' b'
  | _, _ => false
  end.

(** Truth value of an optional string: [None] and the empty string are falsy. *)
Definition truthy (p : option pystr) : bool :=
  match p with
  | Some (_ :: _) => true
  | _ => false
  end.

Definition LF : N := 10%N.
Definition PLUS : N := 43%N.
Definition HYPHEN : N := 45%N.

(** ** The fragment of [re] that the phone pattern uses *)

Inductive regex : Type :=
| Bol                                   (* ^ *)
| Eol                                   (* $ *)
| Lit (c : N)                           (* an escaped or plain character *)
| Digit                                 (* \d *)
| Rep (r : regex) (lo hi : nat)         (* r{lo,hi} *)
| Cat (r1 r2 : regex)
| Alt (r1 r2 : regex).

(** A cursor of the backtracking matcher: the position reached and the text
    that is still to be read. *)
Definition cursor : Type := (nat * pystr)%type.

(** [$] without MULTILINE holds at the end of the text and just before a line
    feed that ends the text. *)
Definition at_eol (cur : cursor) : bool :=
  match snd cur with
  | [] => true
  | [c] => N.eqb c LF
  | _ => false
  end.

(** Greedy bounded repetition: one more round is tried before stopping. *)
Fixpoint rep (f : cursor -> list cursor) (lo hi : nat) (cur : cursor)
  : list cursor :=
  match hi with
  | O => match lo with O => [cur] | S _ => [] end
  | S hi' =>
      flat_map (rep f (Nat.pred lo) hi') (f cur)
      ++ match lo with O => [cur] | S _ => [] end
  end.

(** ** Exceptions and results *)

Inductive exn : Type :=
| PyException (msg : string)            (* raise Exception(msg) *)
| CustomerDoesNotExist.                 (* Customer.DoesNotExist *)

(** [str(e)] *)
Definition exn_str (e : exn) : string :=
  match e with
  | PyException msg => msg
  | CustomerDoesNotExist => "Customer matching query does not exist."
  end.

Inductive result (A : Type) : Type :=
| Ok (a : A)
| Raise (e : exn).

Arguments Raise {A} e.

(** ** What the embedding leaves open

    [\d] on a [str] pattern matches every Unicode decimal digit.  Below 128
    these are '0'..'9'; the table for the other code points belongs to the
    interpreter's Unicode database. *)
Class UnicodeDb : Type := {
  unicode_nd : N -> bool
}.

(** The type of prices comes with the model of Product, which is declared
    outside schema.py; the mutations only use the comparison [price <= 0],
    the addition of [sum] and the integer 0 it starts from. *)
Class PriceOps (Price : Type) : Type := {
  price_zero : Price;
  price_add : Price -> Price -> Price;
  price_le_zero : Price -> bool
}.

Section Schema.

Context {udb : UnicodeDb} (Price : Type) {ops : PriceOps Price}.

Definition is_digit (c : N) : bool :=
  if N.ltb c 128 then N.leb 48 c && N.leb c 57 else unicode_nd c.

(** All the cursors at which [r] can stop when started at [cur], in the order
    in which the backtracking engine reaches them. *)
Fixpoint run (r : regex) (cur : cursor) : list cursor :=
  match r with
  | Bol => match fst cur with O => [cur] | S _ => [] end
  | Eol => if at_eol cur then [cur] else []
  | Lit c =>
      match snd cur with
      | x :: t => if N.eqb x c then [(S (fst cur), t)] else []
      | [] => []
      end
  | Digit =>
      match snd cur with
      | x :: t => if is_digit x then [(S (fst cur), t)] else []
      | [] => []
      end
  | Rep r' lo hi => rep (run r') lo hi cur
  | Cat r1 r2 => flat_map (run r2) (run r1 cur)
  | Alt r1 r2 => run r1 cur ++ run r2 cur
  end.

(** [re.match(pattern, s)]: the first way of matching at position 0, or [None]. *)
Definition re_match (r : regex) (s : pystr) : option cursor :=
  hd_error (run r (O, s)).

(** [\+\d{10,15}|\d{3}-\d{3}-\d{4}], the group of the phone pattern. *)
Definition phone_group : regex :=
  Alt (Cat (Lit PLUS) (Rep Digit 10 15))
      (Cat (Rep Digit 3 3)
        (Cat (Lit HYPHEN)
          (Cat (Rep Digit 3 3)
            (Cat (Lit HYPHEN) (Rep Digit 4 4))))).

(** [r"^(\+\d{10,15}|\d{3}-\d{3}-\d{4})$"] *)
Definition phone_re : regex := Cat Bol (Cat phone_group Eol).

(** The test of line 36, [phone and not re.match(..., phone)]: the phone is
    refused. *)
Definition phone_refused (phone : option pystr) : bool :=
  match phone with
  | Some p => truthy phone && match re_match phone_re p with
                              | Some _ => false
                              | None => true
                              end
  | None => false
  end.

(** *** The two formats, in the words of the specification *)

Definition digit (c : N) : Prop := is_digit c = true.

(** '+' followed by 10 to 15 digits. *)
Definition international_format (p : pystr) : Prop :=
  exists ds, p = PLUS :: ds /\ 10 <= length ds <= 15 /\ Forall digit ds.

(** Three digits, hyphen, three digits, hyphen, four digits. *)
Definition local_format (p : pystr) : Prop :=
  exists a b c,
    p = a ++ HYPHEN :: b ++ HYPHEN :: c /\
    length a = 3 /\ length b = 3 /\ length c = 4 /\
    Forall digit a /\ Forall digit b /\ Forall digit c.

Definition allowed_format (p : pystr) : Prop :=
  international_format p \/ local_format p.

(** ** The tables *)

(** Modelled from the spec: crm/models.py is not among the sources.  Section 3
    gives a customer a generated identity, a name, an email and an optional
    phone. *)
Record Customer : Type := {
  customer_id : Z;
  customer_name : pystr;
  customer_email : pystr;
  customer_phone : option pystr
}.

(** Modelled from the spec: crm/models.py is not among the sources.  Section 3
    gives a product an identity, a name, a price and a stock. *)
Record Product : Type := {
  product_id : Z;
  product_name : pystr;
  product_price : Price;
  product_stock : Z
}.

(** Modelled from the spec: crm/models.py is not among the sources.  Section 3
    gives an order an identity, a reference to one customer and a stored
    total amount; its products are the rows of the association table. *)
Record Order : Type := {
  order_id : Z;
  order_customer_id : Z;
  order_total_amount : Price
}.

Record Store : Type := {
  customers : list Customer;
  products : list Product;
  orders : list Order;
  order_products : list (Z * Z)         (* (order id, product id) *)
}.

Definition empty_store : Store :=
  {| customers := []; products := []; orders := []; order_products := [] |}.

(** The generated identity of a new row: above every identity in the table. *)
Definition next_pk (ids : list Z) : Z := (1 + fold_right Z.max 0 ids)%Z.

(** Identities are primary keys: no two rows of a table share one. *)
Definition pk_unique (st : Store) : Prop :=
  NoDup (map customer_id (customers st)) /\
  NoDup (map product_id (products st)) /\
  NoDup (map order_id (orders st)).

(** ** Computations over the store that may raise *)

Definition M (A : Type) : Type := Store -> result A * Store.

Definition ret (A : Type) (a : A) : M A := fun st => (Ok a, st).

Definition raise {A : Type} (e : exn) : M A := fun st => (Raise e, st).

Definition bind (A B : Type) (m : M A) (k : A -> M B) : M B :=
  fun st =>
    match m st with
    | (Ok a, st') => k a st'
    | (Raise e, st') => (Raise e, st')
    end.

(** [try: body / except Exception as e: handler e] *)
Definition try_except (A : Type) (body : M A) (handler : exn -> M A) : M A :=
  fun st =>
    match body st with
    | (Ok a, st') => (Ok a, st')
    | (Raise e, st') => handler e st'
    end.

(** [with transaction.atomic(): body]: the writes of a body that leaves the
    block normally are committed, those of a body that leaves it with an
    exception are rolled back and the exception goes on. *)
Definition atomic (A : Type) (body : M A) : M A :=
  fun st =>
    match body st with
    | (Ok a, st') => (Ok a, st')
    | (Raise e, _) => (Raise e, st)
    end.

Notation "x <- m ;; k" := (bind m (fun x => k))
  (at level 61, m at next level, right associativity).

(** ** The ORM calls of the mutations *)

Definition has_id (ids : list Z) (i : Z) : bool := existsb (Z.eqb i) ids.

(** [Customer.objects.filter(email=email).exists()] *)
Definition Customer_email_exists (email : pystr) : M bool :=
  fun st =>
    (Ok (existsb (fun c => pystr_eqb (customer_email c) email) (customers st)),
     st).

(** [Customer.objects.create(name=..., email=..., phone=...)] *)
Definition Customer_create (name email : pystr) (phone : option pystr)
  : M Customer :=
  fun st =>
    let c := {| customer_id := next_pk (map customer_id (customers st));
                customer_name := name;
                customer_email := email;
                customer_phone := phone |} in
    (Ok c,
     {| customers := customers st ++ [c];
        products := products st;
        orders := orders st;
        order_products := order_products st |}).

(** [Customer.objects.get(id=customer_id)] *)
Definition Customer_get (id : Z) : M Customer :=
  fun st =>
    match find (fun c => Z.eqb (customer_id c) id) (customers st) with
    | Some c => (Ok c, st)
    | None => (Raise CustomerDoesNotExist, st)
    end.

(** [Product.objects.create(name=..., price=..., stock=...)] *)
Definition Product_create (name : pystr) (price : Price) (stock : Z)
  : M Product :=
  fun st =>
    let p := {| product_id := next_pk (map product_id (products st));
                product_name := name;
                product_price := price;
                product_stock := stock |} in
    (Ok p,
     {| customers := customers st;
        products := products st ++ [p];
        orders := orders st;
        order_products := order_products st |}).

(** [Product.objects.get(id=...)], used to read a product back. *)
Definition Product_get (id : Z) (st : Store) : option Product :=
  find (fun p => Z.eqb (product_id p) id) (products st).

(** A lazy queryset: it is evaluated against the store each time it is used. *)
Definition QuerySet : Type := Store -> list Product.

(** [Product.objects.filter(id__in=product_ids)] *)
Definition Product_filter_id_in (product_ids : list Z) : QuerySet :=
  fun st => filter (fun p => has_id product_ids (product_id p)) (products st).

(** [products.count()] *)
Definition qs_count (qs : QuerySet) : M nat :=
  fun st => (Ok (length (qs st)), st).

(** Iterating over the queryset. *)
Definition qs_iter (qs : QuerySet) : M (list Product) :=
  fun st => (Ok (qs st), st).

(** [sum(prices)]: the additions from the left, starting from 0. *)
Definition py_sum (prices : list Price) : Price :=
  fold_left price_add prices price_zero.

(** [Order.objects.create(customer=customer, total_amount=total)] *)
Definition Order_create (customer : Customer) (total : Price) : M Order :=
  fun st =>
    let o := {| order_id := next_pk (map order_id (orders st));
                order_customer_id := customer_id customer;
                order_total_amount := total |} in
    (Ok o,
     {| customers := customers st;
        products := products st;
        orders := orders st ++ [o];
        order_products := order_products st |}).

(** The product ids associated to an order. *)
Definition order_product_ids (st : Store) (oid : Z) : list Z :=
  map snd (filter (fun r => Z.eqb (fst r) oid) (order_products st)).

(** [order.products.set(products)]: the associations of the order that are not
    among the new products are removed, and the new products that are not yet
    associated are added. *)
Definition Order_products_set (o : Order) (qs : QuerySet) : M unit :=
  fun st =>
    let new_ids := map product_id (qs st) in
    let old_ids := order_product_ids st (order_id o) in
    let kept :=
      filter (fun r => negb (Z.eqb (fst r) (order_id o)) || has_id new_ids (snd r))
             (order_products st) in
    let added :=
      map (pair (order_id o))
          (nodup Z.eq_dec (filter (fun i => negb (has_id old_ids i)) new_ids)) in
    (Ok tt,
     {| customers := customers st;
        products := products st;
        orders := orders st;
        order_products := kept ++ added |}).

(** ** The mutations *)

(** [CreateCustomer.mutate], lines 32-44. *)
Definition create_customer (name email : pystr) (phone : option pystr)
  : M (Customer * string) :=
  taken <- Customer_email_exists email ;;
  if taken then raise (PyException "Email already exists")
  else if phone_refused phone then raise (PyException "Invalid phone format")
  else
    customer <- Customer_create name email phone ;;
    ret (customer, "Customer created successfully"%string).

(** An item of the input list of the bulk mutation ([CustomerInput]). *)
Record CustomerInput : Type := {
  input_name : pystr;
  input_email : pystr;
  input_phone : option pystr
}.

(** The body of the [for] loop of lines 68-80, with the two lists it appends to. *)
Fixpoint bulk_loop (input : list CustomerInput)
  (created : list Customer) (errors : list string)
  : M (list Customer * list string) :=
  match input with
  | [] => ret (created, errors)
  | data :: rest =>
      lists <- try_except
        (taken <- Customer_email_exists (input_email data) ;;
         if taken then raise (PyException "Duplicate email")
         else
           customer <- Customer_create (input_name data) (input_email data)
                                       (input_phone data) ;;
           ret (created ++ [customer], errors))
        (fun e => ret (created, errors ++ [exn_str e])) ;;
      bulk_loop rest (fst lists) (snd lists)
  end.

(** [BulkCreateCustomers.mutate], lines 63-82. *)
Definition bulk_create_customers (input : list CustomerInput)
  : M (list Customer * list string) :=
  atomic (bulk_loop input [] []).

(** [CreateProduct.mutate], lines 93-104; [stock] is [None] when the argument
    is left out, and the default of the signature applies. *)
Definition create_product (name : pystr) (price : Price) (stock : option Z)
  : M Product :=
  let stock := match stock with Some s => s | None => 0%Z end in
  if price_le_zero price then raise (PyException "Price must be positive")
  else if Z.ltb stock 0 then raise (PyException "Stock cannot be negative")
  else Product_create name price stock.

(** [CreateOrder.mutate], lines 114-135; the ID arguments are taken as the
    integer keys they denote. *)
Definition create_order (customer_id : Z) (product_ids : list Z) : M Order :=
  match product_ids with
  | [] => raise (PyException "At least one product is required")
  | _ :: _ =>
      customer <- try_except (Customer_get customer_id)
        (fun e =>
           match e with
           | CustomerDoesNotExist => raise (PyException "Invalid customer ID")
           | _ => raise e
           end) ;;
      let products := Product_filter_id_in product_ids in
      n <- qs_count products ;;
      if negb (Nat.eqb n (length product_ids))
      then raise (PyException "Invalid product ID")
      else
        rows <- qs_iter products ;;
        let total := py_sum (map product_price rows) in
        order <- Order_create customer total ;;
        _ <- Order_products_set order products ;;
        ret order
  end.

(** ** The mutation root, [class Mutation] *)

Inductive request : Type :=
| ReqCreateCustomer (name email : pystr) (phone : option pystr)
| ReqBulkCreateCustomers (input : list CustomerInput)
| ReqCreateProduct (name : pystr) (price : Price) (stock : option Z)
| ReqCreateOrder (customer_id : Z) (product_ids : list Z).

(** The store after a request has been served, whether it failed or not. *)
Definition serve (r : request) (st : Store) : Store :=
  match r with
  | ReqCreateCustomer name email phone => snd (create_customer name email phone st)
  | ReqBulkCreateCustomers input => snd (bulk_create_customers input st)
  | ReqCreateProduct name price stock => snd (create_product name price stock st)
  | ReqCreateOrder cid pids => snd (create_order cid pids st)
  end.

Definition serve_all (rs : list request) (st : Store) : Store :=
  fold_left (fun s r => serve r s) rs st.


(** ** The error taxonomy *)

Inductive error_kind : Type := ValidationError | NotFoundError.

(** Modelled from the spec: the code raises the built-in [Exception] with a
    message; section 7 sorts these failures into validation errors (duplicate
    email, bad phone format, non-positive price, negative stock, empty product
    list) and not-found errors (unknown customer or product id). *)
Definition kind_of (e : exn) : option error_kind :=
  match e with
  | PyException msg =>
      if existsb (String.eqb msg)
           ["Email already exists"; "Duplicate email"; "Invalid phone format";
            "Price must be positive"; "Stock cannot be negative";
            "At least one product is required"]%string
      then Some ValidationError
      else if existsb (String.eqb msg)
                ["Invalid customer ID"; "Invalid product ID"]%string
      then Some NotFoundError
      else None
  | CustomerDoesNotExist => None
  end.

(** ** The vocabulary of the specification *)

(** A customer with this email exists. *)
Definition email_taken (st : Store) (email : pystr) : Prop :=
  In email (map customer_email (customers st)).

(** The id resolves to a customer, to a product. *)
Definition customer_resolves (st : Store) (id : Z) : Prop :=
  In id (map customer_id (customers st)).

Definition product_resolves (st : Store) (id : Z) : Prop :=
  In id (map product_id (products st)).

(** A phone that is absent, empty, or in one of the two formats. *)
Definition phone_acceptable (phone : option pystr) : Prop :=
  match phone with
  | None => True
  | Some p => p = [] \/ allowed_format p
  end.

(** A phone that is present, not empty, without a final line feed, and in
    neither format. *)
Definition phone_malformed (phone : option pystr) : Prop :=
  exists p, phone = Some p /\ p <> [] /\ last p 0%N <> LF /\ ~ allowed_format p.

(** The stock of a CreateProduct call: the argument, or 0 when it is left
    out. *)
Definition given_stock (stock : option Z) : Z :=
  match stock with
  | Some s => s
  | None => 0%Z
  end.

(** What each item of a bulk call contributes, given the emails that are
    taken when its turn comes: an item whose email is taken contributes one
    error string and no customer, any other item contributes one customer
    with its three fields, and its email is taken from then on. *)
Inductive bulk_items
  : list pystr -> list CustomerInput -> list Customer -> list string -> Prop :=
| bulk_items_nil taken :
    bulk_items taken [] [] []
| bulk_items_dup taken d rest cs es :
    In (input_email d) taken ->
    bulk_items taken rest cs es ->
    bulk_items taken (d :: rest) cs ("Duplicate email"%string :: es)
| bulk_items_new taken d rest c cs es :
    ~ In (input_email d) taken ->
    customer_name c = input_name d ->
    customer_email c = input_email d ->
    customer_phone c = input_phone d ->
    bulk_items (taken ++ [input_email d]) rest cs es ->
    bulk_items taken (d :: rest) (c :: cs) es.

(** ** A condition on a store *)

(** No two customers share an email. *)
Definition emails_unique (st : Store) : Prop :=
  NoDup (map customer_email (customers st)).

End Schema.

Arguments product_id {Price} _.
Arguments product_price {Price} _.
Arguments order_id {Price} _.
Arguments next_pk : simpl never.

(** * Sample data *)

(** A table with the Arabic-Indic digits U+0660..U+0669 as the decimal digits
    outside ASCII. *)
Definition sample_db : UnicodeDb :=
  {| unicode_nd := fun c => N.leb 1632 c && N.leb c 1641 |}.

(** Prices as Python floats, the type of the [price] argument of
    CreateProduct. *)
Definition float_prices : PriceOps float :=
  {| price_zero := 0%float;
     price_add := PrimFloat.add;
     price_le_zero := fun p => PrimFloat.leb p 0%float |}.

Definition ann : Customer :=
  {| customer_id := 1;
     customer_name := str "Ann";
     customer_email := str "ann@example.com";
     customer_phone := Some (str "555-123-4567") |}.

Definition desk : Product float :=
  {| product_id := 1;
     product_name := str "desk";
     product_price := 10%float;
     product_stock := 3 |}.

Definition lamp : Product float :=
  {| product_id := 2;
     product_name := str "lamp";
     product_price := 5.5%float;
     product_stock := 0 |}.

(** One customer and two products, no order yet. *)
Definition shop : Store float :=
  {| customers := [ann];
     products := [desk; lamp];
     orders := [];
     order_products := [] |}.

(** The shop after an order of the desk and the lamp by Ann. *)
Definition shop_with_order : Store float :=
  snd (create_order (ops := float_prices) 1 [1%Z; 2%Z] shop).

(** The order that [shop_with_order] holds. *)
Definition first_order : Order float :=
  {| order_id := 1; order_customer_id := 1; order_total_amount := 15.5%float |}.

Definition bob_input : CustomerInput :=
  {| input_name := str "Bob";
     input_email := str "bob@example.com";
     input_phone := Some (str "abc") |}.

Definition cy_input : CustomerInput :=
  {| input_name := str "Cy";
     input_email := str "cy@example.com";
     input_phone := None |}.

Definition bob : Customer :=
  {| customer_id := 2;
     customer_name := str "Bob";
     customer_email := str "bob@example.com";
     customer_phone := Some (str "abc") |}.

Definition cy : Customer :=
  {| customer_id := 3;
     customer_name := str "Cy";
     customer_email := str "cy@example.com";
     customer_phone := None |}.

(** Requests of the four kinds, some of which fail. *)
Definition sample_requests : list (request float) :=
  [ ReqCreateCustomer float (str "Bob") (str "bob@example.com")
      (Some (str "abc"));
    ReqBulkCreateCustomers float [bob_input; cy_input; bob_input];
    ReqCreateProduct (str "pen") 9.5%float None;
    ReqCreateOrder float 2 [3%Z; 1%Z];
    ReqCreateOrder float 1 [1%Z; 1%Z] ].

(** * Properties *)

Section Properties.

Context {udb : UnicodeDb} (Price : Type) {ops : PriceOps Price}.

(** *** What the matcher computes *)

Lemma in_run_digit (cur cur' : cursor) :
  In cur' (run Digit cur) <->
  exists c, snd cur = c :: snd cur' /\ digit c /\ fst cur' = S (fst cur).
Proof.
  destruct cur as [p s], cur' as [q t]; simpl.
  destruct s as [|x s]; simpl.
  - split; [tauto | intros (c & H & _); discriminate].
  - unfold digit. destruct (is_digit x) eqn:E; simpl.
    + split.
      * intros [H|[]]. inversion H; subst. exists x. auto.
      * intros (c & H & _ & ->). inversion H; subst. auto.
    + split; [tauto|]. intros (c & H & D & _). inversion H; subst. congruence.
Qed.

Lemma in_run_lit (c : N) (cur cur' : cursor) :
  In cur' (run (Lit c) cur) <->
  snd cur = c :: snd cur' /\ fst cur' = S (fst cur).
Proof.
  destruct cur as [p s], cur' as [q t]; simpl.
  destruct s as [|x s]; simpl.
  - split; [tauto | intros [H _]; discriminate].
  - destruct (N.eqb_spec x c); simpl.
    + subst. split.
      * intros [H|[]]. inversion H; subst. auto.
      * intros [H ->]. inversion H; subst. auto.
    + split; [tauto|]. intros [H _]. inversion H; subst. congruence.
Qed.

Lemma in_rep_digits (hi lo : nat) (cur cur' : cursor) :
  In cur' (rep (run Digit) lo hi cur) <->
  exists ds, snd cur = ds ++ snd cur' /\ fst cur' = fst cur + length ds /\
             lo <= length ds <= hi /\ Forall digit ds.
Proof.
  revert lo cur. induction hi as [|hi IH]; intros lo cur; simpl.
  - destruct lo; simpl.
    + split.
      * intros [<-|[]]. exists []. simpl. repeat split; auto.
      * intros (ds & H1 & H2 & H3 & _). destruct ds; simpl in *; [|lia].
        left. destruct cur, cur'; simpl in *; subst. f_equal. lia.
    + split; [tauto|]. intros (ds & _ & _ & H & _). lia.
  - rewrite in_app_iff, in_flat_map. split.
    + intros [(mid & Hm & Hr)|H0].
      * apply in_run_digit in Hm. destruct Hm as (c & Hc & Dc & Pc).
        apply IH in Hr. destruct Hr as (ds & H1 & H2 & H3 & H4).
        exists (c :: ds). simpl. rewrite Hc, H1. repeat split; auto; lia.
      * destruct lo; simpl in H0; [|tauto]. destruct H0 as [<-|[]].
        exists []. simpl. repeat split; auto; lia.
    + intros (ds & H1 & H2 & H3 & H4). destruct ds as [|c ds]; simpl in *.
      * right. destruct lo; [|lia]. left.
        destruct cur, cur'; simpl in *; subst. f_equal. lia.
      * left. exists (S (fst cur), ds ++ snd cur'). split.
        -- apply in_run_digit. exists c. simpl. inversion H4; auto.
        -- apply IH. exists ds. simpl. inversion H4; subst.
           repeat split; auto; lia.
Qed.

Lemma in_run_cat (r1 r2 : regex) (cur cur' : cursor) :
  In cur' (run (Cat r1 r2) cur) <->
  exists mid, In mid (run r1 cur) /\ In cur' (run r2 mid).
Proof.
  change (run (Cat r1 r2) cur) with (flat_map (run r2) (run r1 cur)).
  apply in_flat_map.
Qed.

Lemma in_run_alt (r1 r2 : regex) (cur cur' : cursor) :
  In cur' (run (Alt r1 r2) cur) <->
  In cur' (run r1 cur) \/ In cur' (run r2 cur).
Proof.
  change (run (Alt r1 r2) cur) with (run r1 cur ++ run r2 cur).
  apply in_app_iff.
Qed.

Lemma in_run_digits (lo hi : nat) (cur cur' : cursor) :
  In cur' (run (Rep Digit lo hi) cur) <->
  exists ds, snd cur = ds ++ snd cur' /\ fst cur' = fst cur + length ds /\
             lo <= length ds <= hi /\ Forall digit ds.
Proof.
  change (run (Rep Digit lo hi) cur) with (rep (run Digit) lo hi cur).
  apply in_rep_digits.
Qed.

(** The group stops exactly after the prefixes that have one of the two
    formats. *)
Lemma in_run_phone_group (cur cur' : cursor) :
  In cur' (run phone_group cur) <->
  exists pre, snd cur = pre ++ snd cur' /\ fst cur' = fst cur + length pre /\
              allowed_format pre.
Proof.
  unfold phone_group. rewrite in_run_alt. split.
  - intros [H|H].
    + apply in_run_cat in H. destruct H as (m1 & H1 & H2).
      apply in_run_lit in H1. destruct H1 as [E1 P1].
      apply in_run_digits in H2. destruct H2 as (ds & E2 & P2 & L & D).
      exists (PLUS :: ds). simpl. rewrite E1, E2. repeat split; [lia|].
      left. exists ds. auto.
    + apply in_run_cat in H. destruct H as (m1 & H1 & H).
      apply in_run_cat in H. destruct H as (m2 & H2 & H).
      apply in_run_cat in H. destruct H as (m3 & H3 & H).
      apply in_run_cat in H. destruct H as (m4 & H4 & H5).
      apply in_run_digits in H1. destruct H1 as (a & Ea & Pa & La & Da).
      apply in_run_lit in H2. destruct H2 as [E2 P2].
      apply in_run_digits in H3. destruct H3 as (b & Eb & Pb & Lb & Db).
      apply in_run_lit in H4. destruct H4 as [E4 P4].
      apply in_run_digits in H5. destruct H5 as (c & Ec & Pc & Lc & Dc).
      exists (a ++ HYPHEN :: b ++ HYPHEN :: c). repeat split.
      * rewrite Ea, E2, Eb, E4, Ec.
        rewrite <- app_assoc. simpl. rewrite <- app_assoc. reflexivity.
      * rewrite length_app. simpl. rewrite length_app. simpl. lia.
      * right. exists a, b, c. repeat split; auto; lia.
  - intros (pre & E & P & [(ds & -> & L & D)|(a & b & c & -> & La & Lb & Lc & Da & Db & Dc)]).
    + left. apply in_run_cat. exists (S (fst cur), ds ++ snd cur'). split.
      * apply in_run_lit. simpl. auto.
      * apply in_run_digits. exists ds. simpl in *. repeat split; auto; lia.
    + right.
      rewrite <- app_assoc in E. simpl in E. rewrite <- app_assoc in E.
      simpl in E.
      rewrite length_app in P. simpl in P. rewrite length_app in P. simpl in P.
      apply in_run_cat.
      exists (fst cur + 3, HYPHEN :: b ++ HYPHEN :: c ++ snd cur'). split.
      { apply in_run_digits. exists a. simpl. repeat split; auto; lia. }
      apply in_run_cat.
      exists (fst cur + 4, b ++ HYPHEN :: c ++ snd cur'). split.
      { apply in_run_lit. simpl. split; [reflexivity | lia]. }
      apply in_run_cat.
      exists (fst cur + 7, HYPHEN :: c ++ snd cur'). split.
      { apply in_run_digits. exists b. simpl. repeat split; auto; lia. }
      apply in_run_cat.
      exists (fst cur + 8, c ++ snd cur'). split.
      { apply in_run_lit. simpl. split; [reflexivity | lia]. }
      apply in_run_digits. exists c. simpl. repeat split; auto; lia.
Qed.

Lemma hd_error_some_iff (A : Type) (l : list A) :
  hd_error l <> None <-> exists x, In x l.
Proof.
  destruct l as [|x l]; simpl.
  - split; [congruence | intros [x []]].
  - split; [eauto | congruence].
Qed.

(** [re.match] on the whole pattern: a prefix in one of the two formats, and
    after it either nothing or one final line feed. *)
Lemma re_match_phone_iff (s : pystr) :
  re_match phone_re s <> None <->
  exists pre rest, s = pre ++ rest /\ (rest = [] \/ rest = [LF]) /\
                   allowed_format pre.
Proof.
  unfold re_match. rewrite hd_error_some_iff. unfold phone_re. split.
  - intros (x & H). apply in_run_cat in H. destruct H as (m1 & H1 & H).
    simpl in H1. destruct H1 as [<-|[]].
    apply in_run_cat in H. destruct H as (m2 & H2 & H3).
    apply in_run_phone_group in H2. destruct H2 as (pre & E & _ & F).
    cbn [run] in H3. destruct (at_eol m2) eqn:Eol; [|destruct H3].
    exists pre, (snd m2). simpl in E. split; [exact E|]. split; [|exact F].
    unfold at_eol in Eol. destruct (snd m2) as [|c [|c' t]]; auto.
    + apply N.eqb_eq in Eol. subst. auto.
    + discriminate.
  - intros (pre & rest & -> & R & F).
    exists (length pre, rest). apply in_run_cat. exists (0, pre ++ rest).
    split; [simpl; auto|]. apply in_run_cat. exists (length pre, rest). split.
    + apply in_run_phone_group. exists pre. simpl. auto.
    + cbn [run]. unfold at_eol. simpl.
      destruct R as [->| ->]; simpl; auto.
Qed.

Lemma allowed_format_nonempty (p : pystr) : allowed_format p -> p <> [].
Proof.
  intros [(ds & -> & _)|(a & b & c & -> & La & _)]; [discriminate|].
  destruct a; [discriminate | discriminate].
Qed.

(** Every string the phone test lets through, the empty one and the ones with
    a final line feed included. *)
Lemma phone_refused_false_iff (p : pystr) :
  phone_refused (Some p) = false <->
  p = [] \/ allowed_format p \/ exists q, p = q ++ [LF] /\ allowed_format q.
Proof.
  unfold phone_refused.
  destruct p as [|c p]; [simpl; tauto|].
  cbn [truthy andb].
  destruct (re_match phone_re (c :: p)) as [m|] eqn:E.
  - split; [intros _|reflexivity]. right.
    assert (H : re_match phone_re (c :: p) <> None) by congruence.
    apply re_match_phone_iff in H.
    destruct H as (pre & rest & Hs & [->| ->] & F).
    + left. rewrite app_nil_r in Hs. now rewrite Hs.
    + right. exists pre. auto.
  - split; [discriminate|]. intros H. exfalso.
    assert (M : re_match phone_re (c :: p) <> None); [|congruence].
    apply re_match_phone_iff.
    destruct H as [H|[H|(q & H & F)]]; [discriminate| |].
    + exists (c :: p), []. rewrite app_nil_r. auto.
    + exists q, [LF]. auto.
Qed.

(** ** The phone test *)

Lemma allowed_format_accepted (p : pystr) :
  allowed_format p -> phone_refused (Some p) = false.
Proof. intros F. apply phone_refused_false_iff. auto. Qed.

Lemma last_app_singleton (q : pystr) (c d : N) : last (q ++ [c]) d = c.
Proof.
  induction q as [|x q IH]; [reflexivity|].
  simpl. destruct (q ++ [c]) eqn:E; [|exact IH].
  destruct q; discriminate.
Qed.

Lemma malformed_refused (p : pystr) :
  p <> [] -> last p 0%N <> LF -> ~ allowed_format p ->
  phone_refused (Some p) = true.
Proof.
  intros Hne Hlast Hfmt.
  destruct (phone_refused (Some p)) eqn:E; [reflexivity|].
  apply phone_refused_false_iff in E.
  destruct E as [E|[E|(q & -> & _)]]; try contradiction.
  rewrite last_app_singleton in Hlast. congruence.
Qed.

Lemma phone_acceptable_not_refused (phone : option pystr) :
  phone_acceptable phone -> phone_refused phone = false.
Proof.
  destruct phone as [p|]; simpl; [|reflexivity].
  intros [->|F]; [reflexivity|]. now apply allowed_format_accepted.
Qed.

(** The line feed that [$] lets through: a phone in one of the formats is
    still accepted with one line feed after it. *)
Lemma final_line_feed_accepted (p : pystr) :
  allowed_format p -> phone_refused (Some (p ++ [LF])) = false.
Proof.
  intros F. apply phone_refused_false_iff. right. right. exists p. auto.
Qed.

(** ** Reading the tables *)

Lemma pystr_eqb_eq (a b : pystr) : pystr_eqb a b = true <-> a = b.
Proof.
  revert b. induction a as [|x a IH]; intros [|y b]; simpl;
    try (split; [discriminate | discriminate]); [tauto|].
  rewrite andb_true_iff, N.eqb_eq, IH. split.
  - intros [-> ->]. reflexivity.
  - intros H. inversion H. auto.
Qed.

Lemma email_exists_iff (cs : list Customer) (email : pystr) :
  existsb (fun c => pystr_eqb (customer_email c) email) cs = true <->
  In email (map customer_email cs).
Proof.
  rewrite existsb_exists, in_map_iff. split.
  - intros (c & Hc & E). apply pystr_eqb_eq in E. eauto.
  - intros (c & E & Hc). exists c. split; [exact Hc|]. now apply pystr_eqb_eq.
Qed.

Lemma email_exists_false (cs : list Customer) (email : pystr) :
  existsb (fun c => pystr_eqb (customer_email c) email) cs = false <->
  ~ In email (map customer_email cs).
Proof.
  rewrite <- email_exists_iff. destruct (existsb _ cs); split; congruence.
Qed.

Lemma has_id_iff (ids : list Z) (i : Z) : has_id ids i = true <-> In i ids.
Proof.
  unfold has_id. rewrite existsb_exists. split.
  - intros (x & Hx & E). apply Z.eqb_eq in E. now subst.
  - intros H. exists i. split; [exact H | apply Z.eqb_refl].
Qed.

Lemma next_pk_above (ids : list Z) (i : Z) : In i ids -> (i < next_pk ids)%Z.
Proof.
  intros H. assert (L : (i <= fold_right Z.max 0 ids)%Z).
  { induction ids as [|x ids IH]; [destruct H|].
    cbn [fold_right]. destruct H as [->|H]; [lia|]. specialize (IH H). lia. }
  unfold next_pk. lia.
Qed.

Lemma next_pk_fresh (ids : list Z) : ~ In (next_pk ids) ids.
Proof. intros H. apply next_pk_above in H. lia. Qed.

(** ** CreateCustomer *)

(** The three ways out of [create_customer], as the code takes them. *)
Lemma create_customer_eq (name email : pystr) (phone : option pystr)
  (st : Store Price) :
  create_customer name email phone st =
  if existsb (fun c => pystr_eqb (customer_email c) email) (customers st)
  then (Raise (PyException "Email already exists"), st)
  else if phone_refused phone
  then (Raise (PyException "Invalid phone format"), st)
  else
    let c := {| customer_id := next_pk (map customer_id (customers st));
                customer_name := name;
                customer_email := email;
                customer_phone := phone |} in
    (Ok (c, "Customer created successfully"%string),
     {| customers := customers st ++ [c];
        products := products st;
        orders := orders st;
        order_products := order_products st |}).
Proof.
  unfold create_customer, bind, Customer_email_exists, Customer_create,
    raise, ret.
  destruct (existsb _ (customers st)); [reflexivity|].
  destruct (phone_refused phone); reflexivity.
Qed.

(** C3, as amended: an absent phone and an empty phone pass the test of
    CreateCustomer; every string that is '+' followed by 10 to 15 digits, or
    three digits, hyphen, three digits, hyphen, four digits, passes; a string
    that is not empty and does not end with a line feed passes only if it is
    in one of these two formats.  '+15551234567' and '555-123-4567' pass,
    'abc' and '123456' do not. *)
Theorem phone_validation :
  phone_refused None = false /\
  phone_refused (Some []) = false /\
  (forall p, allowed_format p -> phone_refused (Some p) = false) /\
  (forall p, p <> [] -> last p 0%N <> LF ->
     (phone_refused (Some p) = false <-> allowed_format p)) /\
  phone_refused (Some (str "+15551234567")) = false /\
  phone_refused (Some (str "555-123-4567")) = false /\
  phone_refused (Some (str "abc")) = true /\
  phone_refused (Some (str "123456")) = true.
Proof.
  split; [reflexivity|]. split; [reflexivity|].
  split; [exact allowed_format_accepted|]. split.
  - intros p Hne Hlast. split; [|apply allowed_format_accepted].
    intros E. destruct (phone_refused_false_iff p) as [H _].
    destruct (H E) as [->|[F|(q & -> & _)]]; [congruence|exact F|].
    rewrite last_app_singleton in Hlast. congruence.
  - repeat split; vm_compute; reflexivity.
Qed.

(** C2, as amended: CreateCustomer fails with the duplicate-email validation
    error when a customer with that email exists, whatever the phone; with a
    fresh email it fails with the phone-format validation error when the
    phone is present, not empty, without a final line feed and in neither
    format; with a fresh email and a phone that is absent, empty or in one of
    the formats it appends exactly one customer row with the given fields and
    a new identity and returns it with the success message; two such calls
    with distinct fresh emails both succeed. *)
Theorem create_customer_outcome (st : Store Price) (name email : pystr)
  (phone : option pystr) :
  (email_taken st email ->
   create_customer name email phone st =
     (Raise (PyException "Email already exists"), st)) /\
  (~ email_taken st email -> phone_malformed phone ->
   create_customer name email phone st =
     (Raise (PyException "Invalid phone format"), st)) /\
  (~ email_taken st email -> phone_acceptable phone ->
   exists c st',
     create_customer name email phone st =
       (Ok (c, "Customer created successfully"%string), st') /\
     customers st' = customers st ++ [c] /\
     products st' = products st /\ orders st' = orders st /\
     order_products st' = order_products st /\
     customer_name c = name /\ customer_email c = email /\
     customer_phone c = phone /\
     ~ customer_resolves st (customer_id c)) /\
  (forall name2 email2 phone2,
     ~ email_taken st email -> ~ email_taken st email2 -> email <> email2 ->
     phone_acceptable phone -> phone_acceptable phone2 ->
     exists r1 st1 r2 st2,
       create_customer name email phone st = (Ok r1, st1) /\
       create_customer name2 email2 phone2 st1 = (Ok r2, st2)) /\
  kind_of (PyException "Email already exists") = Some ValidationError /\
  kind_of (PyException "Invalid phone format") = Some ValidationError.
Proof.
  unfold email_taken. repeat split.
  - intros T. rewrite create_customer_eq.
    apply email_exists_iff in T. now rewrite T.
  - intros T (p & -> & Hne & Hlast & Hfmt). rewrite create_customer_eq.
    apply email_exists_false in T. rewrite T.
    now rewrite (malformed_refused Hne Hlast Hfmt).
  - intros T A. rewrite create_customer_eq.
    apply email_exists_false in T. rewrite T.
    rewrite (phone_acceptable_not_refused _ A).
    eexists. eexists. split; [reflexivity|]. simpl. repeat split.
    apply next_pk_fresh.
  - intros name2 email2 phone2 T1 T2 Hne A1 A2.
    rewrite create_customer_eq.
    apply email_exists_false in T1. rewrite T1.
    rewrite (phone_acceptable_not_refused _ A1).
    eexists. eexists. eexists. eexists. split; [reflexivity|].
    rewrite create_customer_eq. cbn [customers].
    assert (T : existsb (fun c => pystr_eqb (customer_email c) email2)
                  (customers st ++
                   [{| customer_id := next_pk (map customer_id (customers st));
                       customer_name := name;
                       customer_email := email;
                       customer_phone := phone |}]) = false).
    { apply email_exists_false. rewrite map_app, in_app_iff. simpl.
      intros [H|[H|[]]]; [contradiction | congruence]. }
    rewrite T. rewrite (phone_acceptable_not_refused _ A2). reflexivity.
Qed.

(** C7: when a CreateCustomer call with some email succeeds, a second call
    with the same email on the resulting store fails with the duplicate-email
    validation error and leaves the store as it is, whatever the name and the
    phone of the second call. *)
Theorem create_customer_not_idempotent (st st1 : Store Price)
  (name email : pystr) (phone : option pystr) (r : Customer * string)
  (name2 : pystr) (phone2 : option pystr) :
  create_customer name email phone st = (Ok r, st1) ->
  create_customer name2 email phone2 st1 =
    (Raise (PyException "Email already exists"), st1) /\
  kind_of (PyException "Email already exists") = Some ValidationError.
Proof.
  intros H. split; [|reflexivity].
  rewrite create_customer_eq in H.
  destruct (existsb _ (customers st)); [discriminate|].
  destruct (phone_refused phone); [discriminate|].
  cbv zeta in H. inversion H; subst; clear H.
  rewrite create_customer_eq. cbn [customers].
  rewrite existsb_app. simpl.
  assert (E : pystr_eqb email email = true) by now apply pystr_eqb_eq.
  rewrite E. now rewrite orb_true_r.
Qed.

(** ** BulkCreateCustomers *)

Lemma bulk_items_length (taken : list pystr) (input : list CustomerInput)
  (cs : list Customer) (es : list string) :
  bulk_items taken input cs es -> length cs + length es = length input.
Proof. induction 1; simpl; lia. Qed.

(** The loop never raises: every item either appends a customer to the table
    and to [created], or a message to [errors]. *)
Lemma bulk_loop_spec (input : list CustomerInput) :
  forall (st : Store Price) (created : list Customer) (errors : list string),
  exists cs es st',
    bulk_loop input created errors st = (Ok (created ++ cs, errors ++ es), st') /\
    customers st' = customers st ++ cs /\
    products st' = products st /\ orders st' = orders st /\
    order_products st' = order_products st /\
    bulk_items (map customer_email (customers st)) input cs es.
Proof.
  induction input as [|d rest IH]; intros st created errors.
  - exists [], [], st. simpl. unfold ret. rewrite !app_nil_r.
    repeat split. constructor.
  - cbn [bulk_loop].
    unfold bind at 1. unfold try_except, bind, Customer_email_exists.
    destruct (existsb _ (customers st)) eqn:T.
    + unfold raise, ret. cbn [fst snd exn_str].
      destruct (IH st created (errors ++ ["Duplicate email"%string]))
        as (cs & es & st' & E & Hc & Hp & Ho & Hop & Hi).
      exists cs, ("Duplicate email"%string :: es), st'.
      rewrite E, <- app_assoc. repeat split; auto.
      constructor; [|exact Hi]. now apply email_exists_iff.
    + unfold Customer_create, ret. cbn [fst snd].
      match goal with |- context [bulk_loop rest (created ++ [?c]) errors ?s] =>
        destruct (IH s (created ++ [c]) errors)
          as (cs & es & st' & E & Hc & Hp & Ho & Hop & Hi);
        exists (c :: cs), es, st'
      end.
      rewrite E. cbn [customers products orders order_products] in *.
      rewrite <- !app_assoc in *. cbn [app] in *.
      repeat split; auto.
      apply bulk_items_new; try reflexivity.
      * now apply email_exists_false.
      * rewrite map_app in Hi. exact Hi.
Qed.

Lemma bulk_items_created (pre : list CustomerInput) (d : CustomerInput)
  (post : list CustomerInput) :
  forall (taken : list pystr) (cs : list Customer) (es : list string),
  bulk_items taken (pre ++ d :: post) cs es ->
  ~ In (input_email d) taken ->
  ~ In (input_email d) (map input_email pre) ->
  exists c, In c cs /\ customer_name c = input_name d /\
            customer_email c = input_email d /\
            customer_phone c = input_phone d.
Proof.
  induction pre as [|h pre IH]; intros taken cs es H T Hpre; simpl in H.
  - inversion H; subst; [contradiction|].
    eexists. split; [left; reflexivity|]. auto.
  - inversion H; subst.
    + eapply IH; eauto. simpl in Hpre. tauto.
    + match goal with B : bulk_items (taken ++ _) _ _ _ |- _ =>
        apply IH in B; [destruct B as (c' & Hin & Hf) | |]
      end.
      * exists c'. split; [right; exact Hin | exact Hf].
      * rewrite in_app_iff. simpl in *. intros [G|[G|[]]]; [tauto|].
        apply Hpre. left. exact G.
      * simpl in Hpre. tauto.
Qed.

Lemma bulk_create_customers_outcome_aux (st : Store Price)
  (input : list CustomerInput) :
  exists created errors st',
    bulk_create_customers input st = (Ok (created, errors), st') /\
    bulk_items (map customer_email (customers st)) input created errors /\
    customers st' = customers st ++ created.
Proof.
  destruct (bulk_loop_spec input st [] [])
    as (cs & es & st' & E & Hc & _ & _ & _ & Hi).
  exists cs, es, st'. unfold bulk_create_customers, atomic. rewrite E.
  simpl. auto.
Qed.

(** C1: for every input list the bulk mutation returns normally with a pair
    (created customers, error strings); an item whose email is taken when its
    turn comes, by a row of the store or by an earlier item of the call, adds
    the string 'Duplicate email' and no customer, every other item adds one
    customer with its fields; the created customers are appended to the
    customer table, whatever the number of errors, and nothing else in the
    store changes. *)
Theorem bulk_create_customers_outcome (st : Store Price)
  (input : list CustomerInput) :
  exists created errors st',
    bulk_create_customers input st = (Ok (created, errors), st') /\
    bulk_items (map customer_email (customers st)) input created errors /\
    length created + length errors = length input /\
    customers st' = customers st ++ created /\
    products st' = products st /\ orders st' = orders st /\
    order_products st' = order_products st.
Proof.
  destruct (bulk_loop_spec input st [] [])
    as (cs & es & st' & E & Hc & Hp & Ho & Hop & Hi).
  exists cs, es, st'. unfold bulk_create_customers, atomic. rewrite E.
  simpl. repeat split; auto. eapply bulk_items_length; eauto.
Qed.

(** C8: the bulk mutation has no phone test.  An item whose email is taken
    neither in the store nor by an item before it is created, persisted, and
    keeps its phone as given, also when CreateCustomer refuses that phone
    for the same name and email on the same store. *)
Theorem bulk_create_customers_no_phone_check (st : Store Price)
  (pre : list CustomerInput) (d : CustomerInput) (post : list CustomerInput) :
  ~ email_taken st (input_email d) ->
  ~ In (input_email d) (map input_email pre) ->
  (exists created errors st' c,
     bulk_create_customers (pre ++ d :: post) st = (Ok (created, errors), st') /\
     In c created /\ In c (customers st') /\
     customer_name c = input_name d /\
     customer_email c = input_email d /\
     customer_phone c = input_phone d) /\
  (phone_refused (input_phone d) = true ->
   create_customer (input_name d) (input_email d) (input_phone d) st =
     (Raise (PyException "Invalid phone format"), st)).
Proof.
  intros T Hpre. split.
  - destruct (bulk_create_customers_outcome_aux st (pre ++ d :: post))
      as (created & errors & st' & E & Hi & Hc).
    destruct (bulk_items_created _ _ _ Hi T Hpre) as (c & Hin & Hf).
    exists created, errors, st', c. repeat split; try tauto.
    rewrite Hc. apply in_or_app. now right.
  - intros R. rewrite create_customer_eq.
    apply email_exists_false in T. now rewrite T, R.
Qed.

(** ** Rows are only ever appended *)

Lemma find_app_some (A : Type) (f : A -> bool) (l l' : list A) (x : A) :
  find f l = Some x -> find f (l ++ l') = Some x.
Proof.
  induction l as [|a l IH]; simpl; [discriminate|].
  destruct (f a); auto.
Qed.

Lemma find_app_none (A : Type) (f : A -> bool) (l l' : list A) :
  find f l = None -> find f (l ++ l') = find f l'.
Proof.
  induction l as [|a l IH]; simpl; [reflexivity|].
  destruct (f a); [discriminate | auto].
Qed.

Lemma find_none_iff (A : Type) (key : A -> Z) (l : list A) (i : Z) :
  find (fun x => Z.eqb (key x) i) l = None <-> ~ In i (map key l).
Proof.
  induction l as [|a l IH]; simpl; [tauto|].
  destruct (Z.eqb_spec (key a) i).
  - split; [discriminate | tauto].
  - rewrite IH. tauto.
Qed.

Lemma find_fresh_last (A : Type) (key : A -> Z) (l : list A) (x : A) :
  ~ In (key x) (map key l) ->
  find (fun y => Z.eqb (key y) (key x)) (l ++ [x]) = Some x.
Proof.
  intros H. rewrite find_app_none by now apply find_none_iff.
  simpl. now rewrite Z.eqb_refl.
Qed.

Lemma create_product_eq (name : pystr) (price : Price) (stock : option Z)
  (st : Store Price) :
  create_product name price stock st =
  if price_le_zero price
  then (Raise (PyException "Price must be positive"), st)
  else if Z.ltb (given_stock stock) 0
  then (Raise (PyException "Stock cannot be negative"), st)
  else Product_create name price (given_stock stock) st.
Proof.
  unfold create_product, given_stock, raise.
  destruct (price_le_zero price); [reflexivity|].
  destruct (Z.ltb _ 0); reflexivity.
Qed.

Lemma create_order_eq (cid : Z) (pids : list Z) (st : Store Price) :
  create_order cid pids st =
  match pids with
  | [] => (Raise (PyException "At least one product is required"), st)
  | _ :: _ =>
      match find (fun c => Z.eqb (customer_id c) cid) (customers st) with
      | None => (Raise (PyException "Invalid customer ID"), st)
      | Some c =>
          if Nat.eqb (length (Product_filter_id_in pids st)) (length pids)
          then
            let total :=
              py_sum (map product_price (Product_filter_id_in pids st)) in
            let o := fst (Order_create c total st) in
            match o with
            | Ok o =>
                (Ok o,
                 snd (Order_products_set o (Product_filter_id_in pids)
                        (snd (Order_create c total st))))
            | Raise e => (Raise e, st)
            end
          else (Raise (PyException "Invalid product ID"), st)
      end
  end.
Proof.
  unfold create_order. destruct pids as [|i pids]; [reflexivity|].
  unfold bind at 1. unfold try_except, Customer_get.
  destruct (find _ (customers st)) as [c|]; [|reflexivity].
  unfold bind, qs_count, qs_iter, raise, ret.
  destruct (Nat.eqb _ _); reflexivity.
Qed.

(** Closes a goal that asks for the rows appended to the three tables. *)
Ltac appended :=
  do 3 eexists; simpl; repeat split;
  first [reflexivity | symmetry; apply app_nil_r].

(** Whatever the request, each table keeps its rows and gets new ones, if
    any, at the end. *)
Lemma serve_appends (r : request Price) (st : Store Price) :
  exists cs ps os,
    customers (serve r st) = customers st ++ cs /\
    products (serve r st) = products st ++ ps /\
    orders (serve r st) = orders st ++ os.
Proof.
  destruct r as [name email phone|input|name price stock|cid pids];
    cbn [serve].
  - rewrite create_customer_eq.
    destruct (existsb _ (customers st)); [appended|].
    destruct (phone_refused phone); appended.
  - destruct (bulk_loop_spec input st [] [])
      as (cs & es & st' & E & Hc & Hp & Ho & _).
    unfold bulk_create_customers, atomic. rewrite E. cbn [snd].
    exists cs, [], []. rewrite !app_nil_r. auto.
  - rewrite create_product_eq.
    destruct (price_le_zero price); [appended|].
    destruct (Z.ltb _ 0); appended.
  - rewrite create_order_eq.
    destruct pids; [appended|].
    destruct (find _ (customers st)); [|appended].
    destruct (Nat.eqb _ _); appended.
Qed.

Lemma serve_all_appends (rs : list (request Price)) :
  forall st : Store Price,
  exists cs ps os,
    customers (serve_all rs st) = customers st ++ cs /\
    products (serve_all rs st) = products st ++ ps /\
    orders (serve_all rs st) = orders st ++ os.
Proof.
  unfold serve_all.
  induction rs as [|r rs IH]; intros st; simpl.
  - exists [], [], []. now rewrite !app_nil_r.
  - destruct (serve_appends r st) as (cs & ps & os & Hc & Hp & Ho).
    destruct (IH (serve r st)) as (cs' & ps' & os' & Hc' & Hp' & Ho').
    exists (cs ++ cs'), (ps ++ ps'), (os ++ os').
    rewrite Hc', Hp', Ho', Hc, Hp, Ho, !app_assoc. auto.
Qed.

Lemma Product_get_stable (rs : list (request Price)) (st : Store Price)
  (i : Z) (p : Product Price) :
  Product_get i st = Some p -> Product_get i (serve_all rs st) = Some p.
Proof.
  unfold Product_get. intros H.
  destruct (serve_all_appends rs st) as (_ & ps & _ & _ & -> & _).
  now apply find_app_some.
Qed.


(** ** CreateProduct *)

(** C4: CreateProduct fails, with a validation error, exactly when the price
    is at most 0 or the stock is negative, the stock being 0 when the
    argument is left out; otherwise it appends one product row with the given
    name, price and stock and a new identity, returns it, and the product can
    be read back by its identity then and after any further requests. *)
Theorem create_product_outcome (st : Store Price) (name : pystr)
  (price : Price) (stock : option Z) :
  ((exists e, fst (create_product name price stock st) = Raise e) <->
   price_le_zero price = true \/ (given_stock stock < 0)%Z) /\
  (price_le_zero price = true ->
   create_product name price stock st =
     (Raise (PyException "Price must be positive"), st)) /\
  (price_le_zero price = false -> (given_stock stock < 0)%Z ->
   create_product name price stock st =
     (Raise (PyException "Stock cannot be negative"), st)) /\
  (price_le_zero price = false -> (0 <= given_stock stock)%Z ->
   exists p st',
     create_product name price stock st = (Ok p, st') /\
     products st' = products st ++ [p] /\
     customers st' = customers st /\ orders st' = orders st /\
     order_products st' = order_products st /\
     product_name p = name /\ product_price p = price /\
     product_stock p = given_stock stock /\
     ~ product_resolves st (product_id p) /\
     forall rs, Product_get (product_id p) (serve_all rs st') = Some p) /\
  given_stock None = 0%Z /\
  kind_of (PyException "Price must be positive") = Some ValidationError /\
  kind_of (PyException "Stock cannot be negative") = Some ValidationError.
Proof.
  assert (bad_price : price_le_zero price = true ->
            create_product name price stock st =
              (Raise (PyException "Price must be positive"), st)).
  { intros H. rewrite create_product_eq. now rewrite H. }
  assert (bad_stock : price_le_zero price = false ->
            (given_stock stock < 0)%Z ->
            create_product name price stock st =
              (Raise (PyException "Stock cannot be negative"), st)).
  { intros H L. rewrite create_product_eq, H.
    apply Z.ltb_lt in L. now rewrite L. }
  assert (good : price_le_zero price = false -> (0 <= given_stock stock)%Z ->
            create_product name price stock st =
              Product_create name price (given_stock stock) st).
  { intros H L. rewrite create_product_eq, H.
    apply Z.ltb_ge in L. now rewrite L. }
  split; [|split; [exact bad_price|split; [exact bad_stock|split]]].
  - split.
    + intros (e & E).
      destruct (price_le_zero price) eqn:Hp; [now left|]. right.
      destruct (Z.lt_ge_cases (given_stock stock) 0) as [L|L]; [exact L|].
      rewrite (good eq_refl L) in E. discriminate.
    + destruct (price_le_zero price) eqn:Hp.
      * intros _. rewrite (bad_price eq_refl). eexists. reflexivity.
      * intros [H|L]; [discriminate|].
        rewrite (bad_stock eq_refl L). eexists. reflexivity.
  - intros H L. rewrite (good H L). unfold Product_create.
    match goal with |- context [Ok ?q] => set (p := q) end.
    exists p. eexists. split; [reflexivity|].
    cbn [products customers orders order_products].
    repeat split.
    + apply next_pk_fresh.
    + intros rs. apply Product_get_stable. unfold Product_get.
      cbn [products].
      apply (find_fresh_last (@product_id Price) (products st) p).
      apply next_pk_fresh.
  - repeat split.
Qed.

(** ** CreateOrder *)

Lemma resolved_ids (pids : list Z) (st : Store Price) :
  map product_id (Product_filter_id_in pids st) =
  filter (has_id pids) (map product_id (products st)).
Proof. unfold Product_filter_id_in. symmetry. apply filter_map_swap. Qed.


Lemma resolved_ids_iff (pids : list Z) (st : Store Price) (i : Z) :
  In i (map product_id (Product_filter_id_in pids st)) <->
  product_resolves st i /\ In i pids.
Proof.
  rewrite resolved_ids, filter_In, has_id_iff. reflexivity.
Qed.


(** The count comparison of line 124 passes exactly when the requested ids
    are pairwise distinct and each of them resolves. *)
Lemma resolved_count_eq_iff (pids : list Z) (st : Store Price) :
  NoDup (map product_id (products st)) ->
  (length (Product_filter_id_in pids st) = length pids <->
   NoDup pids /\ Forall (product_resolves st) pids).
Proof.
  intros N. rewrite <- (length_map product_id), resolved_ids.
  set (found := filter (has_id pids) (map product_id (products st))).
  assert (Nf : NoDup found) by now apply NoDup_filter.
  assert (If : incl found pids).
  { intros i H. apply filter_In in H. now apply has_id_iff. }
  split.
  - intros E. split.
    + apply (NoDup_incl_NoDup Nf); [lia | exact If].
    + apply Forall_forall. intros i Hi.
      assert (Inc : incl pids found).
      { apply NoDup_length_incl; [exact Nf | lia | exact If]. }
      apply Inc in Hi. apply filter_In in Hi. apply Hi.
  - intros [Np Hr]. apply Nat.le_antisymm.
    + now apply NoDup_incl_length.
    + apply NoDup_incl_length; [exact Np|].
      intros i Hi. apply filter_In. split.
      * rewrite Forall_forall in Hr. now apply Hr.
      * now apply has_id_iff.
Qed.

Lemma find_customer_some (st : Store Price) (cid : Z) :
  customer_resolves st cid ->
  exists c, find (fun c => Z.eqb (customer_id c) cid) (customers st) = Some c
            /\ customer_id c = cid /\ In c (customers st).
Proof.
  intros R.
  destruct (find (fun c => Z.eqb (customer_id c) cid) (customers st))
    as [c|] eqn:F.
  - exists c. split; [reflexivity|]. apply find_some in F.
    destruct F as [Hin E]. apply Z.eqb_eq in E. auto.
  - apply (find_none_iff customer_id) in F. contradiction.
Qed.

(** After [order.products.set(products)] the products of the order are the
    products of the queryset. *)
Lemma set_products_ids (o : Order Price) (qs : QuerySet Price)
  (st : Store Price) (i : Z) :
  In i (order_product_ids (snd (Order_products_set o qs st)) (order_id o)) <->
  In i (map product_id (qs st)).
Proof.
  unfold order_product_ids, Order_products_set. cbn [snd order_products].
  rewrite filter_app, map_app, in_app_iff. split.
  - intros [H|H]; apply in_map_iff in H; destruct H as (r & E & H).
    + apply filter_In in H. destruct H as [H F1].
      apply filter_In in H. destruct H as [_ F2].
      rewrite F1 in F2. cbn in F2. apply has_id_iff in F2.
      now rewrite E in F2.
    + apply filter_In in H. destruct H as [H _].
      apply in_map_iff in H. destruct H as (j & <- & H).
      apply nodup_In, filter_In in H. cbn in E. subst j. apply H.
  - intros H.
    destruct (has_id (map snd (filter (fun r => Z.eqb (fst r) (order_id o))
                                  (order_products st))) i) eqn:Old.
    + left. apply has_id_iff, in_map_iff in Old.
      destruct Old as (r & E & Hr). apply in_map_iff.
      exists r. split; [exact E|].
      apply filter_In in Hr. destruct Hr as [Hr F1].
      apply filter_In. split; [|exact F1].
      apply filter_In. split; [exact Hr|].
      rewrite F1. cbn. apply has_id_iff. now rewrite E.
    + right. apply in_map_iff.
      exists (order_id o, i). split; [reflexivity|].
      apply filter_In. split; [|cbn; apply Z.eqb_refl].
      apply in_map. apply nodup_In, filter_In. split; [exact H|].
      unfold order_product_ids. now rewrite Old.
Qed.

(** The associations of the other orders are left alone. *)
Lemma set_products_others (o : Order Price) (qs : QuerySet Price)
  (st : Store Price) (oid : Z) :
  oid <> order_id o ->
  order_product_ids (snd (Order_products_set o qs st)) oid =
  order_product_ids st oid.
Proof.
  intros Hne. unfold order_product_ids, Order_products_set.
  cbn [snd order_products]. rewrite filter_app, map_app.
  match goal with |- _ ++ map snd ?added = _ =>
    assert (A : added = []); [|rewrite A, app_nil_r]
  end.
  - match goal with |- filter _ (map _ ?l) = _ => generalize l end.
    intros l. induction l as [|j l IH]; [reflexivity|].
    cbn. destruct (Z.eqb_spec (order_id o) oid); [congruence | exact IH].
  - f_equal. induction (order_products st) as [|r l IH]; [reflexivity|].
    cbn [filter]. destruct (Z.eqb_spec (fst r) oid) as [E|E].
    + destruct (Z.eqb_spec (fst r) (order_id o)) as [E'|E']; [congruence|].
      cbn [negb orb filter].
      destruct (Z.eqb_spec (fst r) oid); [|contradiction].
      now rewrite IH.
    + destruct (negb (Z.eqb (fst r) (order_id o)) || _); [|exact IH].
      cbn [filter]. destruct (Z.eqb_spec (fst r) oid); [contradiction|].
      exact IH.
Qed.

(** A successful call, read off the code: the order that is returned and the
    store that is left. *)
Lemma create_order_ok (cid : Z) (pids : list Z) (st st' : Store Price)
  (o : Order Price) :
  create_order cid pids st = (Ok o, st') ->
  exists c,
    find (fun c => Z.eqb (customer_id c) cid) (customers st) = Some c /\
    pids <> [] /\
    length (Product_filter_id_in pids st) = length pids /\
    o = {| order_id := next_pk (map order_id (orders st));
           order_customer_id := customer_id c;
           order_total_amount :=
             py_sum (map product_price (Product_filter_id_in pids st)) |} /\
    st' = snd (Order_products_set o (Product_filter_id_in pids)
                 {| customers := customers st;
                    products := products st;
                    orders := orders st ++ [o];
                    order_products := order_products st |}).
Proof.
  rewrite create_order_eq. destruct pids as [|i pids]; [discriminate|].
  destruct (find _ (customers st)) as [c|]; [|discriminate].
  destruct (Nat.eqb_spec (length (Product_filter_id_in (i :: pids) st))
              (length (i :: pids))) as [E|E]; [|discriminate].
  cbv zeta. unfold Order_create. cbn [fst snd]. intros H.
  inversion H; subst; clear H.
  exists c. repeat split; [discriminate | exact E].
Qed.

(** C5, as amended: CreateOrder makes its checks in this order.  It fails
    when the list of product ids is empty; otherwise it fails with the
    not-found error 'Invalid customer ID' when the customer id does not
    resolve; otherwise it fails with the not-found error 'Invalid product ID'
    when the number of products found for the ids differs from the length of
    the list; otherwise it appends one order that refers to the customer and
    is associated to the products found.  With identities as primary keys
    the two numbers agree exactly when the ids of the list are pairwise
    distinct and each of them resolves. *)
Theorem create_order_outcome (st : Store Price) (cid : Z) (pids : list Z) :
  (pids = [] ->
   create_order cid pids st =
     (Raise (PyException "At least one product is required"), st)) /\
  (pids <> [] -> ~ customer_resolves st cid ->
   create_order cid pids st =
     (Raise (PyException "Invalid customer ID"), st)) /\
  (pids <> [] -> customer_resolves st cid ->
   length (Product_filter_id_in pids st) <> length pids ->
   create_order cid pids st =
     (Raise (PyException "Invalid product ID"), st)) /\
  (pids <> [] -> customer_resolves st cid ->
   length (Product_filter_id_in pids st) = length pids ->
   exists o st',
     create_order cid pids st = (Ok o, st') /\
     orders st' = orders st ++ [o] /\
     order_customer_id o = cid /\
     forall i, In i (order_product_ids st' (order_id o)) <->
               product_resolves st i /\ In i pids) /\
  (pk_unique st ->
   (length (Product_filter_id_in pids st) = length pids <->
    NoDup pids /\ Forall (product_resolves st) pids)) /\
  kind_of (PyException "At least one product is required")
    = Some ValidationError /\
  kind_of (PyException "Invalid customer ID") = Some NotFoundError /\
  kind_of (PyException "Invalid product ID") = Some NotFoundError.
Proof.
  split; [|split; [|split; [|split; [|split]]]].
  - intros ->. reflexivity.
  - intros Hne R. rewrite create_order_eq.
    destruct pids as [|i pids]; [congruence|].
    apply (find_none_iff customer_id) in R. now rewrite R.
  - intros Hne R L. rewrite create_order_eq.
    destruct pids as [|i pids]; [congruence|].
    destruct (find_customer_some _ _ R) as (c & -> & _).
    apply Nat.eqb_neq in L. now rewrite L.
  - intros Hne R L. rewrite create_order_eq.
    destruct pids as [|i pids]; [congruence|].
    destruct (find_customer_some _ _ R) as (c & -> & Hc & _).
    apply Nat.eqb_eq in L. rewrite L. cbv zeta.
    unfold Order_create at 1 2. cbn [fst snd].
    eexists. eexists. split; [reflexivity|].
    split; [reflexivity|]. split; [exact Hc|].
    intros j. rewrite set_products_ids.
    exact (resolved_ids_iff (i :: pids) st j).
  - intros (_ & N & _). now apply resolved_count_eq_iff.
  - repeat split.
Qed.



(** C10: a successful CreateOrder leaves the customer table and the product
    table as they were, stocks included; it appends one order row, and the
    product associations of every other order stay as they were. *)
Theorem create_order_frame (st st' : Store Price) (cid : Z) (pids : list Z)
  (o : Order Price) :
  create_order cid pids st = (Ok o, st') ->
  customers st' = customers st /\
  products st' = products st /\
  orders st' = orders st ++ [o] /\
  (forall oid, oid <> order_id o ->
     order_product_ids st' oid = order_product_ids st oid) /\
  (forall i, Product_get i st' = Product_get i st).
Proof.
  intros H. apply create_order_ok in H.
  destruct H as (c & _ & _ & _ & _ & ->).
  repeat split.
  intros oid Hne. now rewrite set_products_others.
Qed.

(** ** Identities stay primary keys *)

Lemma NoDup_next_pk (ids : list Z) : NoDup ids -> NoDup (ids ++ [next_pk ids]).
Proof.
  intros N. apply NoDup_app; [exact N | |].
  - constructor; [simpl; tauto | constructor].
  - intros a Ha [<-|[]]. now apply next_pk_fresh in Ha.
Qed.

Lemma bulk_loop_pk (input : list CustomerInput) :
  forall (st : Store Price) (created : list Customer) (errors : list string),
  NoDup (map customer_id (customers st)) ->
  NoDup (map customer_id
           (customers (snd (bulk_loop input created errors st)))).
Proof.
  induction input as [|d rest IH]; intros st created errors N; [exact N|].
  cbn [bulk_loop].
  unfold bind at 1. unfold try_except, bind, Customer_email_exists.
  destruct (existsb _ (customers st)).
  - unfold raise, ret. cbn [fst snd]. now apply IH.
  - unfold Customer_create, ret. cbn [fst snd]. apply IH.
    cbn [customers]. rewrite map_app. cbn [map customer_id].
    now apply NoDup_next_pk.
Qed.

Lemma pk_unique_empty : pk_unique (empty_store Price).
Proof. repeat split; constructor. Qed.

(** Every request keeps the identities of each table pairwise distinct, so
    every store reached from the empty one has primary keys. *)
Lemma pk_unique_serve (r : request Price) (st : Store Price) :
  pk_unique st -> pk_unique (serve r st).
Proof.
  intros (Nc & Np & No).
  destruct r as [name email phone|input|name price stock|cid pids];
    cbn [serve].
  - rewrite create_customer_eq.
    destruct (existsb _ (customers st)); [now repeat split|].
    destruct (phone_refused phone); [now repeat split|].
    repeat split; cbn; auto.
    rewrite map_app. now apply NoDup_next_pk.
  - destruct (bulk_loop_spec input st [] [])
      as (cs & es & st' & E & _ & Hp & Ho & _).
    pose proof (bulk_loop_pk input st [] [] Nc) as N.
    unfold bulk_create_customers, atomic. rewrite E in *. cbn [snd] in *.
    repeat split; [exact N | now rewrite Hp | now rewrite Ho].
  - rewrite create_product_eq.
    destruct (price_le_zero price); [now repeat split|].
    destruct (Z.ltb _ 0); [now repeat split|].
    repeat split; cbn; auto.
    rewrite map_app. now apply NoDup_next_pk.
  - rewrite create_order_eq.
    destruct pids; [now repeat split|].
    destruct (find _ (customers st)); [|now repeat split].
    destruct (Nat.eqb _ _); [|now repeat split].
    repeat split; cbn; auto.
    rewrite map_app. now apply NoDup_next_pk.
Qed.

(** ** What a request adds to each table *)

Lemma bulk_items_fresh (taken : list pystr) (input : list CustomerInput)
  (cs : list Customer) (es : list string) :
  bulk_items taken input cs es ->
  NoDup (map customer_email cs) /\
  forall c, In c cs -> ~ In (customer_email c) taken.
Proof.
  induction 1 as [taken|taken d rest cs es T _ IH
                 |taken d rest c cs es T Hn He Hp _ IH].
  - split; [constructor | intros c []].
  - exact IH.
  - destruct IH as [N F]. split.
    + cbn [map]. constructor; [|exact N].
      intros Hin. apply in_map_iff in Hin. destruct Hin as (c' & E & Hc').
      apply (F c' Hc'). rewrite in_app_iff. right. left. congruence.
    + intros c' [<-|Hc']; [congruence|].
      intros Hin. apply (F c' Hc'). rewrite in_app_iff. now left.
Qed.

(** The customers a request appends have pairwise distinct emails, none of
    which was taken. *)
Lemma serve_customers (r : request Price) (st : Store Price) :
  exists cs,
    customers (serve r st) = customers st ++ cs /\
    NoDup (map customer_email cs) /\
    forall c, In c cs -> ~ email_taken st (customer_email c).
Proof.
  assert (none : forall st' : Store Price, customers st' = customers st ->
            exists cs, customers st' = customers st ++ cs /\
              NoDup (map customer_email cs) /\
              forall c, In c cs -> ~ email_taken st (customer_email c)).
  { intros st' E. exists []. rewrite app_nil_r.
    split; [exact E|]. split; [constructor | intros c []]. }
  destruct r as [name email phone|input|name price stock|cid pids];
    cbn [serve].
  - rewrite create_customer_eq.
    destruct (existsb _ (customers st)) eqn:T; [now apply none|].
    destruct (phone_refused phone); [now apply none|].
    eexists. split; [reflexivity|]. split.
    + repeat constructor. simpl. tauto.
    + intros c [<-|[]]. cbn. now apply email_exists_false.
  - destruct (bulk_loop_spec input st [] [])
      as (cs & es & st' & E & Hc & _ & _ & _ & Hi).
    unfold bulk_create_customers, atomic. rewrite E. cbn [snd].
    exists cs. split; [exact Hc|]. now apply bulk_items_fresh in Hi.
  - apply none. rewrite create_product_eq.
    destruct (price_le_zero price); [reflexivity|].
    destruct (Z.ltb _ 0); reflexivity.
  - apply none. rewrite create_order_eq.
    destruct pids; [reflexivity|].
    destruct (find _ (customers st)); [|reflexivity].
    destruct (Nat.eqb _ _); reflexivity.
Qed.

(** ** A condition that every request keeps *)

Lemma emails_unique_serve (r : request Price) (st : Store Price) :
  emails_unique st -> emails_unique (serve r st).
Proof.
  unfold emails_unique. intros U.
  destruct (serve_customers r st) as (cs & -> & N & F).
  rewrite map_app. apply NoDup_app; [exact U | exact N |].
  intros e He Hin. apply in_map_iff in Hin. destruct Hin as (c & <- & Hc).
  exact (F c Hc He).
Qed.

(** What every request keeps holds after any list of requests. *)
Lemma serve_all_keeps (Inv : Store Price -> Prop) :
  (forall r st, Inv st -> Inv (serve r st)) ->
  forall rs st, Inv st -> Inv (serve_all rs st).
Proof.
  intros Step rs. unfold serve_all.
  induction rs as [|r rs IH]; intros st H; [exact H|].
  cbn [fold_left]. apply IH. now apply Step.
Qed.

(** X1: when no two customers of the store share an email, no two do after
    any list of requests: CreateCustomer and the bulk mutation both look the
    email up before they insert. *)
Theorem serve_all_emails_unique (rs : list (request Price))
  (st : Store Price) :
  emails_unique st -> emails_unique (serve_all rs st).
Proof.
  revert rs st. apply serve_all_keeps. exact emails_unique_serve.
Qed.

(** ** Failed calls *)

Lemma create_order_raise (cid : Z) (pids : list Z) (st st' : Store Price)
  (e : exn) :
  create_order cid pids st = (Raise e, st') ->
  st' = st /\
  (e = PyException "At least one product is required" \/
   e = PyException "Invalid customer ID" \/
   e = PyException "Invalid product ID").
Proof.
  rewrite create_order_eq. destruct pids as [|i pids].
  - intros H. inversion H. auto.
  - destruct (find _ (customers st)) as [c|].
    + destruct (Nat.eqb _ _); [discriminate|].
      intros H. inversion H. auto.
    + intros H. inversion H. auto.
Qed.

(** ** Orders and their associations *)

(** A request either leaves the orders and their associations alone, or is
    a CreateOrder call that succeeds. *)
Lemma serve_order_cases (r : request Price) (st : Store Price) :
  (orders (serve r st) = orders st /\
   order_products (serve r st) = order_products st) \/
  (exists cid pids o, create_order cid pids st = (Ok o, serve r st)).
Proof.
  destruct r as [name email phone|input|name price stock|cid pids];
    cbn [serve].
  - left. rewrite create_customer_eq.
    destruct (existsb _ (customers st)); [now split|].
    destruct (phone_refused phone); now split.
  - left. destruct (bulk_loop_spec input st [] [])
      as (cs & es & st' & E & _ & _ & Ho & Hop & _).
    unfold bulk_create_customers, atomic. rewrite E. now split.
  - left. rewrite create_product_eq.
    destruct (price_le_zero price); [now split|].
    destruct (Z.ltb _ 0); now split.
  - destruct (create_order cid pids st) as [[o|e] st'] eqn:E.
    + right. exists cid, pids, o. exact E.
    + left. apply create_order_raise in E. destruct E as [-> _]. now split.
Qed.

(** The associations of an order of the store are left alone by every
    request. *)
Lemma serve_associations (r : request Price) (st : Store Price) (oid : Z) :
  In oid (map order_id (orders st)) ->
  order_product_ids (serve r st) oid = order_product_ids st oid.
Proof.
  intros Hin.
  destruct (serve_order_cases r st)
    as [[_ Eop]|(cid & pids & o & E)].
  - unfold order_product_ids. now rewrite Eop.
  - destruct (create_order_ok _ _ _ E) as (c & _ & _ & _ & Eq & Est).
    rewrite Est, set_products_others; [reflexivity|].
    rewrite Eq. cbn [order_id]. intros Heq.
    apply (next_pk_fresh (map order_id (orders st))). now rewrite <- Heq.
Qed.

(** X2: no request removes or changes a row.  After any list of requests
    each of the three tables is the table before followed by the new rows,
    and every order of the store before is associated to the same products
    as before. *)
Theorem serve_all_append_only (rs : list (request Price)) (st : Store Price) :
  (exists cs ps os,
     customers (serve_all rs st) = customers st ++ cs /\
     products (serve_all rs st) = products st ++ ps /\
     orders (serve_all rs st) = orders st ++ os) /\
  (forall o, In o (orders st) ->
     order_product_ids (serve_all rs st) (order_id o) =
     order_product_ids st (order_id o)).
Proof.
  split; [apply serve_all_appends|].
  assert (G : forall oid, In oid (map order_id (orders st)) ->
            order_product_ids (serve_all rs st) oid =
            order_product_ids st oid).
  { unfold serve_all. revert st.
    induction rs as [|r rs IH]; intros st oid Hin; [reflexivity|].
    cbn [fold_left]. rewrite IH.
    - now apply serve_associations.
    - destruct (serve_appends r st) as (_ & _ & os & _ & _ & ->).
      rewrite map_app. apply in_or_app. now left. }
  intros o Hin. apply G. now apply in_map.
Qed.

(** ** Batches *)

(** One round of the loop of the bulk mutation. *)
Lemma bulk_loop_step (d : CustomerInput) (rest : list CustomerInput)
  (created : list Customer) (errors : list string) (st : Store Price) :
  bulk_loop (d :: rest) created errors st =
  if existsb (fun c => pystr_eqb (customer_email c) (input_email d))
       (customers st)
  then bulk_loop rest created (errors ++ ["Duplicate email"%string]) st
  else
    let c := {| customer_id := next_pk (map customer_id (customers st));
                customer_name := input_name d;
                customer_email := input_email d;
                customer_phone := input_phone d |} in
    bulk_loop rest (created ++ [c]) errors
      {| customers := customers st ++ [c];
         products := products st;
         orders := orders st;
         order_products := order_products st |}.
Proof.
  cbn [bulk_loop].
  unfold bind at 1. unfold try_except, bind, Customer_email_exists.
  destruct (existsb _ (customers st)); reflexivity.
Qed.

(** The two lists the loop appends to only ever get longer at the end. *)
Lemma bulk_loop_acc (input : list CustomerInput) :
  forall (st : Store Price) (created : list Customer) (errors : list string),
  bulk_loop input created errors st =
  match bulk_loop input [] [] st with
  | (Ok (cs, es), st') => (Ok (created ++ cs, errors ++ es), st')
  | (Raise e, st') => (Raise e, st')
  end.
Proof.
  induction input as [|d rest IH]; intros st created errors.
  - cbn. unfold ret. now rewrite !app_nil_r.
  - rewrite !bulk_loop_step.
    destruct (existsb _ (customers st)).
    + rewrite (IH st created (errors ++ ["Duplicate email"%string])).
      rewrite (IH st [] ([] ++ ["Duplicate email"%string])).
      destruct (bulk_loop rest [] [] st) as [[[cs es]|e] st'];
        [|reflexivity].
      cbn [app]. now rewrite <- app_assoc.
    + cbv zeta.
      match goal with |- bulk_loop rest (created ++ [?c]) errors ?s = _ =>
        rewrite (IH s (created ++ [c]) errors);
        rewrite (IH s ([] ++ [c]) []);
        destruct (bulk_loop rest [] [] s) as [[[cs es]|e] st'];
          [|reflexivity]
      end.
      cbn [app]. now rewrite <- app_assoc.
Qed.

Lemma bulk_loop_app (xs ys : list CustomerInput) :
  forall (st : Store Price) (created : list Customer) (errors : list string),
  bulk_loop (xs ++ ys) created errors st =
  match bulk_loop xs created errors st with
  | (Ok (cs, es), st') => bulk_loop ys cs es st'
  | (Raise e, st') => (Raise e, st')
  end.
Proof.
  induction xs as [|d xs IH]; intros st created errors; [reflexivity|].
  cbn [app]. rewrite !bulk_loop_step.
  destruct (existsb _ (customers st)); apply IH.
Qed.

(** The atomic block is left normally, so the mutation is its loop. *)
Lemma bulk_create_customers_loop (input : list CustomerInput)
  (st : Store Price) :
  bulk_create_customers input st = bulk_loop input [] [] st.
Proof.
  destruct (bulk_loop_spec input st [] []) as (cs & es & st' & E & _).
  unfold bulk_create_customers, atomic. now rewrite E.
Qed.

(** X3: a batch can be split.  Running the bulk mutation on [xs] and then,
    on the store it leaves, on [ys] creates the same customers, gives the
    same error strings and leaves the same store as running it once on
    [xs ++ ys]. *)
Theorem bulk_create_customers_app (xs ys : list CustomerInput)
  (st st1 st2 : Store Price) (c1 c2 : list Customer) (e1 e2 : list string) :
  bulk_create_customers xs st = (Ok (c1, e1), st1) ->
  bulk_create_customers ys st1 = (Ok (c2, e2), st2) ->
  bulk_create_customers (xs ++ ys) st = (Ok (c1 ++ c2, e1 ++ e2), st2).
Proof.
  rewrite !bulk_create_customers_loop. intros H1 H2.
  rewrite bulk_loop_app, H1, bulk_loop_acc, H2. reflexivity.
Qed.

(** ** The order of the product ids *)

Lemma has_id_permutation (pids pids' : list Z) (i : Z) :
  Permutation pids pids' -> has_id pids i = has_id pids' i.
Proof.
  intros Hp. apply eq_true_iff_eq. rewrite !has_id_iff. split.
  - now apply Permutation_in.
  - apply Permutation_in. now apply Permutation_sym.
Qed.

(** X4: the order in which the product ids are listed does not matter: two
    CreateOrder calls whose lists are permutations of each other fail with
    the same message, or return the same order, with the same total, and
    leave the same store. *)
Theorem create_order_permutation (st : Store Price) (cid : Z)
  (pids pids' : list Z) :
  Permutation pids pids' ->
  create_order cid pids st = create_order cid pids' st.
Proof.
  intros Hp. rewrite !create_order_eq.
  assert (Ef : forall s : Store Price,
            Product_filter_id_in pids s = Product_filter_id_in pids' s).
  { intros s. unfold Product_filter_id_in. apply filter_ext.
    intros p. now apply has_id_permutation. }
  assert (El : length pids = length pids') by now apply Permutation_length.
  destruct pids as [|i pids], pids' as [|i' pids'].
  - reflexivity.
  - apply Permutation_nil in Hp. discriminate.
  - apply Permutation_sym, Permutation_nil in Hp. discriminate.
  - destruct (find _ (customers st)) as [c|]; [|reflexivity].
    rewrite (Ef st), El. destruct (Nat.eqb _ _); [|reflexivity].
    cbv zeta. unfold Order_create, Order_products_set. cbn [fst snd].
    now rewrite !Ef.
Qed.

End Properties.

(** * Instances of the theorems on the sample data *)

Lemma phone_validation_witness :
  phone_refused (udb := sample_db) (Some (str "abc")) = false <->
  allowed_format (udb := sample_db) (str "abc").
Proof.
  destruct (@phone_validation sample_db) as (_ & _ & _ & H & _).
  apply H; [discriminate | vm_compute; discriminate].
Defined.

(** The empty phone is present, is in neither format, and passes. *)
Lemma phone_validation_counterexample :
  phone_refused (udb := sample_db) (Some (str "")) = false /\
  ~ allowed_format (udb := sample_db) (str "").
Proof.
  split; [reflexivity|].
  intros F. now apply allowed_format_nonempty in F.
Qed.

Lemma not_allowed_by_test (db : UnicodeDb) (p : pystr) :
  phone_refused (udb := db) (Some p) = true -> ~ allowed_format (udb := db) p.
Proof.
  intros R F. apply allowed_format_accepted in F. congruence.
Qed.

Lemma create_customer_outcome_witness :
  create_customer (udb := sample_db) (str "Bob") (str "ann@example.com")
    None shop
  = (Raise (PyException "Email already exists"), shop) /\
  create_customer (udb := sample_db) (str "Bob") (str "bob@example.com")
    (Some (str "abc")) shop
  = (Raise (PyException "Invalid phone format"), shop) /\
  exists c st',
    create_customer (udb := sample_db) (str "Bob") (str "bob@example.com")
      (Some (str "+15551234567")) shop
    = (Ok (c, "Customer created successfully"%string), st') /\
    customers st' = [ann; c] /\
    customer_phone c = Some (str "+15551234567").
Proof.
  assert (fresh : ~ email_taken shop (str "bob@example.com")).
  { unfold email_taken. simpl. intros [H|[]]. discriminate H. }
  split; [|split].
  - apply (@create_customer_outcome sample_db float shop).
    unfold email_taken. simpl. left. reflexivity.
  - apply (@create_customer_outcome sample_db float shop); [exact fresh|].
    exists (str "abc"). split; [reflexivity|]. split; [discriminate|].
    split; [vm_compute; discriminate|].
    apply not_allowed_by_test. vm_compute. reflexivity.
  - destruct (@create_customer_outcome sample_db float shop (str "Bob")
                (str "bob@example.com") (Some (str "+15551234567")))
      as (_ & _ & H & _).
    destruct H as (c & st' & E & Hc & _ & _ & _ & _ & _ & Hp & _);
      [exact fresh| |].
    + right. left. exists (str "15551234567").
      split; [reflexivity|]. split; [simpl; lia|].
      repeat (constructor; [reflexivity|]). constructor.
    + exists c, st'. auto.
Defined.

(** A phone that is present and in neither format, and a call that succeeds
    and stores it. *)
Lemma create_customer_outcome_counterexample :
  ~ allowed_format (udb := sample_db) (str "") /\
  fst (create_customer (udb := sample_db) (str "Bob") (str "bob@example.com")
         (Some (str "")) shop)
  = Ok ({| customer_id := 2;
           customer_name := str "Bob";
           customer_email := str "bob@example.com";
           customer_phone := Some (str "") |},
        "Customer created successfully"%string).
Proof.
  split; [|reflexivity].
  intros F. now apply allowed_format_nonempty in F.
Qed.

Lemma create_customer_not_idempotent_witness :
  create_customer (udb := sample_db) (str "Robert") (str "bob@example.com")
    (Some (str "555-123-4567"))
    (snd (create_customer (udb := sample_db) (str "Bob")
            (str "bob@example.com") None shop))
  = (Raise (PyException "Email already exists"),
     snd (create_customer (udb := sample_db) (str "Bob")
            (str "bob@example.com") None shop)).
Proof.
  refine (proj1 (@create_customer_not_idempotent sample_db float shop _
                   (str "Bob") (str "bob@example.com") None _
                   (str "Robert") (Some (str "555-123-4567")) _)).
  reflexivity.
Defined.


(** The test of section 8 for the bulk mutation: one valid item and one item
    whose email exists give one created customer, which is in the store
    afterwards, and one error string. *)
Example bulk_create_customers_one_of_two :
  bulk_create_customers
    [ {| input_name := str "Bob"; input_email := str "bob@example.com";
         input_phone := None |};
      {| input_name := str "Ann"; input_email := str "ann@example.com";
         input_phone := None |} ] shop
  = (Ok ([ {| customer_id := 2; customer_name := str "Bob";
              customer_email := str "bob@example.com";
              customer_phone := None |} ],
         [ "Duplicate email"%string ]),
     {| customers := [ann; {| customer_id := 2; customer_name := str "Bob";
                              customer_email := str "bob@example.com";
                              customer_phone := None |}];
        products := [desk; lamp];
        orders := [];
        order_products := [] |}).
Proof. reflexivity. Qed.

(** The line feed that the pattern lets through, on an example. *)
Example phone_with_final_line_feed :
  phone_refused (udb := sample_db) (Some (str "555-123-4567" ++ [LF])) = false.
Proof. reflexivity. Qed.

Lemma bulk_create_customers_no_phone_check_witness :
  (exists created errors st' c,
     bulk_create_customers
       [ {| input_name := str "Ann"; input_email := str "ann@example.com";
            input_phone := None |};
         {| input_name := str "Bob"; input_email := str "bob@example.com";
            input_phone := Some (str "abc") |} ] shop
     = (Ok (created, errors), st') /\
     In c created /\ In c (customers st') /\
     customer_phone c = Some (str "abc")) /\
  create_customer (udb := sample_db) (str "Bob") (str "bob@example.com")
    (Some (str "abc")) shop
  = (Raise (PyException "Invalid phone format"), shop).
Proof.
  destruct (@bulk_create_customers_no_phone_check sample_db float shop
              [ {| input_name := str "Ann";
                   input_email := str "ann@example.com";
                   input_phone := None |} ]
              {| input_name := str "Bob";
                 input_email := str "bob@example.com";
                 input_phone := Some (str "abc") |} [])
    as [(created & errors & st' & c & E & H1 & H2 & _ & _ & H3) R].
  - unfold email_taken. simpl. intros [H|[]]. discriminate H.
  - simpl. intros [H|[]]. discriminate H.
  - split; [|apply R; reflexivity].
    exists created, errors, st', c. auto.
Defined.

Lemma create_product_outcome_witness :
  create_product (ops := float_prices) (str "pen") 0%float None shop
  = (Raise (PyException "Price must be positive"), shop) /\
  create_product (ops := float_prices) (str "pen") 9.5%float (Some (-1)%Z) shop
  = (Raise (PyException "Stock cannot be negative"), shop) /\
  exists p st',
    create_product (ops := float_prices) (str "pen") 9.5%float (Some 5%Z) shop
    = (Ok p, st') /\
    products st' = [desk; lamp; p] /\
    product_price p = 9.5%float /\ product_stock p = 5%Z /\
    Product_get (product_id p) st' = Some p.
Proof.
  split; [|split].
  - apply (@create_product_outcome sample_db float float_prices shop).
    reflexivity.
  - apply (@create_product_outcome sample_db float float_prices shop);
      [reflexivity | simpl; lia].
  - destruct (@create_product_outcome sample_db float float_prices shop
                (str "pen") 9.5%float (Some 5%Z)) as (_ & _ & _ & H & _).
    destruct H as (p & st' & E & Hp & _ & _ & _ & _ & Hprice & Hstock & _ & G);
      [reflexivity | simpl; lia |].
    exists p, st'. repeat split; auto. exact (G []).
Defined.

Lemma create_order_outcome_witness :
  create_order (ops := float_prices) 1 [] shop
  = (Raise (PyException "At least one product is required"), shop) /\
  create_order (ops := float_prices) 7 [1%Z] shop
  = (Raise (PyException "Invalid customer ID"), shop) /\
  create_order (ops := float_prices) 1 [1%Z; 9%Z] shop
  = (Raise (PyException "Invalid product ID"), shop) /\
  exists o st',
    create_order (ops := float_prices) 1 [1%Z; 2%Z] shop = (Ok o, st') /\
    orders st' = [o] /\ order_customer_id o = 1%Z.
Proof.
  assert (ann_resolves : customer_resolves shop 1).
  { unfold customer_resolves. simpl. auto. }
  split; [|split; [|split]].
  - now apply (@create_order_outcome float float_prices shop).
  - apply (@create_order_outcome float float_prices shop); [discriminate|].
    unfold customer_resolves. simpl. intros [H|[]]. discriminate H.
  - apply (@create_order_outcome float float_prices shop);
      [discriminate | exact ann_resolves | simpl; lia].
  - destruct (@create_order_outcome float float_prices shop 1 [1%Z; 2%Z])
      as (_ & _ & _ & H & _).
    destruct H as (o & st' & E & Ho & Hc & _);
      [discriminate | exact ann_resolves | reflexivity |].
    exists o, st'. auto.
Defined.

(** A list that is not empty, a customer id and product ids that all
    resolve, and yet no order: the same id is listed twice. *)
Lemma create_order_outcome_counterexample :
  [1%Z; 1%Z] <> [] /\
  customer_resolves shop 1 /\
  Forall (product_resolves shop) [1%Z; 1%Z] /\
  create_order (ops := float_prices) 1 [1%Z; 1%Z] shop
  = (Raise (PyException "Invalid product ID"), shop).
Proof.
  split; [discriminate|]. split; [left; reflexivity|].
  split; [|reflexivity].
  repeat constructor.
Qed.




Lemma create_order_frame_witness :
  customers (snd (create_order (ops := float_prices) 1 [1%Z; 2%Z] shop))
  = [ann] /\
  products (snd (create_order (ops := float_prices) 1 [1%Z; 2%Z] shop))
  = [desk; lamp].
Proof.
  destruct (@create_order_frame float float_prices shop
              (snd (create_order (ops := float_prices) 1 [1%Z; 2%Z] shop))
              1 [1%Z; 2%Z]
              {| order_id := 1; order_customer_id := 1;
                 order_total_amount := 15.5%float |} eq_refl)
    as (Hc & Hp & _).
  split; [exact Hc | exact Hp].
Defined.

(** * Further instances on the sample data *)

Lemma serve_all_emails_unique_witness :
  emails_unique
    (serve_all (udb := sample_db) (ops := float_prices) sample_requests shop).
Proof.
  apply (@serve_all_emails_unique sample_db float float_prices
           sample_requests shop).
  unfold emails_unique. simpl. constructor; [simpl; tauto | constructor].
Defined.

Lemma serve_all_append_only_witness :
  order_product_ids
    (serve_all (udb := sample_db) (ops := float_prices) sample_requests
       shop_with_order)
    (order_id first_order)
  = order_product_ids shop_with_order (order_id first_order).
Proof.
  apply (@serve_all_append_only sample_db float float_prices sample_requests
           shop_with_order).
  vm_compute. now left.
Defined.

Lemma bulk_create_customers_app_witness :
  bulk_create_customers ([bob_input] ++ [bob_input; cy_input]) shop
  = (Ok ([bob] ++ [cy], [] ++ ["Duplicate email"%string]),
     snd (bulk_create_customers [bob_input; cy_input]
            (snd (bulk_create_customers [bob_input] shop)))).
Proof.
  apply (@bulk_create_customers_app float [bob_input] [bob_input; cy_input]
           shop (snd (bulk_create_customers [bob_input] shop)));
    reflexivity.
Defined.

Lemma create_order_permutation_witness :
  create_order (ops := float_prices) 1 [2%Z; 1%Z] shop
  = create_order (ops := float_prices) 1 [1%Z; 2%Z] shop.
Proof.
  apply (@create_order_permutation float float_prices shop 1).
  apply perm_swap.
Defined.
